(** * rls-vscode [src/tasks.ts]: cargo task provider and task launcher

    A shallow embedding of [tasks.ts].  JavaScript values are modelled by
    their TypeScript types: an optional field [f?: T] is an [option T]
    ([None] is [undefined]), a [string[]] is a [list string], an
    environment object [{ [key: string]: string }] is a [gmap string string].
    The [vscode] host API ([Task], [ShellExecution], [tasks.onDidEndTask],
    [tasks.executeTask]) is modelled by its documented behaviour. *)

From Stdlib Require Import String Ascii List.
From stdpp Require Import base option list gmap strings.
Import ListNotations.

Local Open Scope string_scope.

(** ** JavaScript operators used by the module *)
Module JS.

(** Truthiness of a value of type [string | undefined]: only a non-empty
    string is truthy. *)
Definition truthy (v : option string) : bool :=
  match v with
  | Some s => negb (String.eqb s "")
  | None => false
  end.

(** [a || b] on values of type [string | undefined]. *)
Definition or (a b : option string) : option string :=
  if truthy a then a else b.

(** [a ?? b]: only [undefined] (and [null]) fall through. *)
Definition nullish {A} (a : option A) (b : A) : A :=
  match a with
  | Some x => x
  | None => b
  end.

(** String conversion inside a template literal [`${v}`]. *)
Definition template (v : option string) : string :=
  match v with
  | Some s => s
  | None => "undefined"
  end.

(** [Array.prototype.join] on a [string[]]. *)
Definition join (sep : string) (xs : list string) : string :=
  String.concat sep xs.

(** What the module can raise: reading a property of [undefined]. *)
Inductive Error := TypeError.

Inductive Result (A : Type) :=
  | Ok (a : A)
  | Throw (e : Error).
Arguments Ok {A} a.
Arguments Throw {A} e.

End JS.

(** ** The [vscode] types the module uses *)

Record Uri := { fsPath : string }.

Record WorkspaceFolder := {
  uri : Uri;
  folderName : string;   (* [WorkspaceFolder.name] *)
  index : nat
}.

Inductive TaskGroup := Build | Test | Clean | Rebuild.

Record ShellExecutionOptions := {
  optCwd : option string;
  optEnv : option (gmap string string)
}.

(** [ShellExecution] has two constructors in the host API: one taking a full
    command line, one taking a command and its arguments.  Only the first
    form has a [commandLine]. *)
Inductive ShellExecution :=
| ShellCommandLine (cmdLine : string) (options : ShellExecutionOptions)
| ShellCommandArgs (cmd : string) (cmdArgs : list string)
                   (options : ShellExecutionOptions).

Definition commandLine (se : ShellExecution) : option string :=
  match se with
  | ShellCommandLine cl _ => Some cl
  | ShellCommandArgs _ _ _ => None
  end.

(** [Task.execution]: [ProcessExecution | ShellExecution | CustomExecution]
    or [undefined]. *)
Inductive TaskExecutionKind :=
| ProcessExec (process : string) (processArgs : list string)
| ShellExec (se : ShellExecution)
| CustomExec
| NoExec.

(** [CargoTaskDefinition extends TaskDefinition]. *)
Record CargoTaskDefinition := {
  type : string;
  defCommand : option string;
  defArgs : option (list string);
  defCwd : option string;
  defEnv : option (gmap string string)
}.

Record Task := {
  definition : CargoTaskDefinition;
  scope : option WorkspaceFolder;
  name : string;
  source : string;
  execution : TaskExecutionKind;
  (* a property read; tasks built by [new Task] always hold an array *)
  problemMatchers : option (list string);
  group : option TaskGroup
}.

(** [new Task(definition, scope, name, source, execution?, problemMatchers?)]:
    an omitted matcher list is stored as the empty array, and the group is
    left unset. *)
Definition new_Task (d : CargoTaskDefinition) (sc : option WorkspaceFolder)
    (n src : string) (ex : TaskExecutionKind) (pm : option (list string)) : Task :=
  {| definition := d; scope := sc; name := n; source := src; execution := ex;
     problemMatchers := Some (JS.nullish pm []); group := None |}.

(** [task.group = g] *)
Definition set_group (g : option TaskGroup) (t : Task) : Task :=
  {| definition := definition t; scope := scope t; name := name t;
     source := source t; execution := execution t;
     problemMatchers := problemMatchers t; group := g |}.

(** ** [tasks.ts] *)

Definition TASK_SOURCE : string := "Rust".
Definition TASK_TYPE : string := "cargo".

(** The [Execution] interface: command execution parameters sent by the RLS. *)
Record Execution := {
  binary : option string;   (* deprecated *)
  command : option string;
  args : list string;
  env : option (gmap string string);
  cwd : option string
}.

Definition createShellExecution (execution : Execution) : ShellExecution :=
  let cmdLine :=
    JS.template (JS.or (command execution) (binary execution))
      ++ " " ++ JS.join " " (args execution) in
  ShellCommandLine cmdLine {| optCwd := cwd execution; optEnv := env execution |}.

Definition shellDefinition : CargoTaskDefinition :=
  {| type := "shell"; defCommand := None; defArgs := None;
     defCwd := None; defEnv := None |}.

Definition resolveCargoTask (task : Task) (target : WorkspaceFolder) : option Task :=
  let definition := definition task in
  if String.eqb (type definition) "cargo" && JS.truthy (defCommand definition) then
    match defCommand definition with
    | Some command =>
        let args := ([command] ++ JS.nullish (defArgs definition) [])%list in
        Some (new_Task definition (Some target) (name task) TASK_SOURCE
                (ShellExec (ShellCommandArgs "cargo" args
                   {| optCwd := defCwd definition; optEnv := defEnv definition |}))
                (Some (JS.nullish (problemMatchers task) ["$rustc"])))
    | None => None   (* not reached: [undefined] is falsy *)
    end
  else None.

(** The plain objects the first [map] of [detectCargoTasks] builds. *)
Record DetectedTask := {
  dtDefinition : CargoTaskDefinition;
  dtLabel : string;
  dtExecution : ShellExecution;
  dtGroup : option TaskGroup;
  dtProblemMatchers : list string
}.

Definition detectCargoTasks (target : WorkspaceFolder) : list Task :=
  map (fun task =>
         let vscodeTask :=
           new_Task (dtDefinition task) (Some target) (dtLabel task) TASK_SOURCE
             (ShellExec (dtExecution task)) (Some (dtProblemMatchers task)) in
         set_group (dtGroup task) vscodeTask)
    (map (fun '(command, group) =>
            {| dtDefinition :=
                 {| type := TASK_TYPE; defCommand := Some command; defArgs := None;
                    defCwd := None; defEnv := None |};
               dtLabel := "cargo " ++ command ++ " - " ++ folderName target;
               dtExecution :=
                 createShellExecution
                   {| binary := None; command := Some "cargo"; args := [command];
                      env := None; cwd := Some (fsPath (uri target)) |};
               dtGroup := group;
               dtProblemMatchers := ["$rustc"] |})
       [ ("build", Some Build);
         ("check", Some Build);
         ("test", Some Test);
         ("clean", Some Clean);
         ("run", None) ]).

(** ** The task execution facility

    The part of the host that [runRlsCommand] and [runTaskCommand] act on:
    the workspace folders, the tasks handed to [tasks.executeTask], the
    listeners subscribed to [tasks.onDidEndTask] and the promises fulfilled
    so far.  The only listeners this module subscribes are the closures of
    [runTaskCommand]; each is determined by the promise it resolves (whose
    number also names its [disposable]) and the [commandLine] it captured. *)

Record EndListener := {
  promise : nat;
  key : string
}.

#[global] Instance EndListener_eq_dec : EqDecision EndListener.
Proof. solve_decision. Defined.

Record Host := {
  workspaceFolders : option (list WorkspaceFolder);
  executed : list Task;             (* most recent first *)
  endListeners : list EndListener;  (* in subscription order *)
  resolveCalls : list nat;          (* every call of a [resolve], most recent first *)
  nextPromise : nat
}.

Definition executeTask (t : Task) (h : Host) : Host :=
  {| workspaceFolders := workspaceFolders h; executed := t :: executed h;
     endListeners := endListeners h; resolveCalls := resolveCalls h;
     nextPromise := nextPromise h |}.

(** [tasks.onDidEndTask(listener)] *)
Definition onDidEndTask (l : EndListener) (h : Host) : Host :=
  {| workspaceFolders := workspaceFolders h; executed := executed h;
     endListeners := (endListeners h ++ [l])%list; resolveCalls := resolveCalls h;
     nextPromise := nextPromise h |}.

(** [disposable.dispose()] *)
Definition dispose (p : nat) (h : Host) : Host :=
  {| workspaceFolders := workspaceFolders h; executed := executed h;
     endListeners := filter (fun l => promise l <> p) (endListeners h);
     resolveCalls := resolveCalls h; nextPromise := nextPromise h |}.

(** [resolve()] *)
Definition resolve (p : nat) (h : Host) : Host :=
  {| workspaceFolders := workspaceFolders h; executed := executed h;
     endListeners := endListeners h; resolveCalls := p :: resolveCalls h;
     nextPromise := nextPromise h |}.

(** [new Promise(resolve => ...)]: allocates the promise. *)
Definition newPromise (h : Host) : nat * Host :=
  (nextPromise h,
   {| workspaceFolders := workspaceFolders h; executed := executed h;
      endListeners := endListeners h; resolveCalls := resolveCalls h;
      nextPromise := S (nextPromise h) |}).

Definition runRlsCommandTask (folder : WorkspaceFolder) (execution : Execution) : Task :=
  let shellExecution := createShellExecution execution in
  let problemMatchers := ["$rustc"] in
  new_Task shellDefinition (Some folder) "External RLS command" TASK_SOURCE
    (ShellExec shellExecution) (Some problemMatchers).

Definition runRlsCommand (folder : WorkspaceFolder) (execution : Execution)
    (h : Host) : Host :=
  executeTask (runRlsCommandTask folder execution) h.

(** The command line [runTaskCommand] builds; it destructures only
    [command], [args], [env] and [cwd] from its argument. *)
Definition taskCommandLine (e : Execution) : string :=
  JS.template (command e) ++ " " ++ JS.join " " (args e).

(** [folder || workspace.workspaceFolders![0]] *)
Definition taskScope (folder : option WorkspaceFolder) (h : Host)
    : JS.Result (option WorkspaceFolder) :=
  match folder with
  | Some f => JS.Ok (Some f)
  | None =>
      match workspaceFolders h with
      | Some fs => JS.Ok (fs !! 0)
      | None => JS.Throw JS.TypeError
      end
  end.

Definition runTaskCommandTask (e : Execution) (displayName : string)
    (folder : option WorkspaceFolder) (sc : option WorkspaceFolder) : Task :=
  new_Task shellDefinition sc displayName TASK_SOURCE
    (ShellExec (ShellCommandLine (taskCommandLine e)
       {| optCwd := JS.or (cwd e) (fsPath <$> (uri <$> folder));
          optEnv := env e |}))
    None.

(** The test of the listener passed to [tasks.onDidEndTask]:
    [taskExecution instanceof ShellExecution &&
     taskExecution.commandLine === commandLine]. *)
Definition matchesCommandLine (commandLine0 : string) (ended : Task) : bool :=
  match execution ended with
  | ShellExec taskExecution =>
      bool_decide (commandLine taskExecution = Some commandLine0)
  | _ => false
  end.

(** The listener itself, run on the task that ended. *)
Definition endTaskListener (l : EndListener) (ended : Task) (h : Host) : Host :=
  if matchesCommandLine (key l) ended
  then resolve (promise l) (dispose (promise l) h)
  else h.

Definition runTaskCommand (e : Execution) (displayName : string)
    (folder : option WorkspaceFolder) (h : Host) : JS.Result (nat * Host) :=
  match taskScope folder h with
  | JS.Throw err => JS.Throw err
  | JS.Ok sc =>
      let task := runTaskCommandTask e displayName folder sc in
      let '(p, h) := newPromise h in
      let h := onDidEndTask {| promise := p; key := taskCommandLine e |} h in
      JS.Ok (p, executeTask task h)
  end.

(** The host fires "task ended": every listener subscribed at that moment
    is run once, in subscription order. *)
Definition fireDidEndTask (ended : Task) (h : Host) : Host :=
  foldl (fun h l => endTaskListener l ended h) h (endListeners h).

(** What happens at the host between two turns of its event loop: the
    extension calls [runTaskCommand], or a task ends. *)
Inductive HostEvent :=
| Submit (e : Execution) (displayName : string) (folder : option WorkspaceFolder)
| TaskEnded (ended : Task).

Definition step (h : Host) (ev : HostEvent) : Host :=
  match ev with
  | Submit e displayName folder =>
      match runTaskCommand e displayName folder h with
      | JS.Ok (_, h') => h'
      | JS.Throw _ => h
      end
  | TaskEnded ended => fireDidEndTask ended h
  end.

Definition run (evs : list HostEvent) (h : Host) : Host := foldl step h evs.

(** Hosts as [runTaskCommand] and the "task ended" events leave them:
    promises are numbered in allocation order, a promise has at most one
    listener, only promises without a listener have been resolved, and none
    was resolved twice. *)
Definition wf (h : Host) : Prop :=
  NoDup (promise <$> endListeners h) /\
  (forall l, l ∈ endListeners h -> promise l < nextPromise h) /\
  (forall p, p ∈ resolveCalls h ->
     p < nextPromise h /\ p ∉ promise <$> endListeners h) /\
  NoDup (resolveCalls h).

Definition emptyHost (folders : option (list WorkspaceFolder)) : Host :=
  {| workspaceFolders := folders; executed := []; endListeners := [];
     resolveCalls := []; nextPromise := 0 |}.

(** The command line a task that ended carries: [execution.task.execution
    .commandLine] when the execution is a [ShellExecution] built from a
    command line, nothing otherwise. *)
Definition endedCommandLine (ended : Task) : option string :=
  match execution ended with
  | ShellExec se => commandLine se
  | _ => None
  end.

(** ** The task provider

    [activateTaskProvider] builds a [TaskProvider] around its target and
    hands it to [tasks.registerTaskProvider]; a registration is the pair of
    arguments of that call. *)

Record TaskProvider := {
  provideTasks : unit -> list Task;
  resolveTask : Task -> option Task
}.

Record ProviderRegistration := {
  regType : string;
  regProvider : TaskProvider
}.

Definition activateTaskProvider (target : WorkspaceFolder) : ProviderRegistration :=
  let provider :=
    {| provideTasks := fun _ => detectCargoTasks target;
       resolveTask := fun task => resolveCargoTask task target |} in
  {| regType := TASK_TYPE; regProvider := provider |}.

(** [{ ...e, args: a }] *)
Definition setArgs (a : list string) (e : Execution) : Execution :=
  {| binary := binary e; command := command e; args := a; env := env e; cwd := cwd e |}.

(** ** The spec's reading of an Execution Request *)
Module Spec.

(** The program name as section 3 and 4.1 of the specification word it:
      prefer [command]; if absent, fall back to the deprecated [binary]. *)
Definition program (e : Execution) : option string :=
    match command e with
    | Some c => Some c
    | None => binary e
    end.

(** The canonical command line of a shell execution, "the single joined
    string form of program + arguments" of the glossary: the line itself when
    the execution was built from one, and the 4.1 normalization of its
    command and arguments when it was built from those. *)
Definition canonicalCommandLine (se : ShellExecution) : option string :=
  match se with
  | ShellCommandLine cl _ => Some cl
  | ShellCommandArgs c a o =>
      commandLine (createShellExecution
        {| binary := None; command := Some c; args := a;
           env := optEnv o; cwd := optCwd o |})
  end.

End Spec.

(** [{ ...e, binary: b }] *)
Definition setBinary (b : option string) (e : Execution) : Execution :=
  {| binary := b; command := command e; args := args e; env := env e; cwd := cwd e |}.

(** * Properties *)

(** ** Strings *)
Section Strings.

Lemma length_append (s t : string) :
  String.length (s ++ t) = String.length s + String.length t.
Proof. induction s as [|c s IH]; simpl; [done | by rewrite IH]. Qed.

Lemma append_assoc (a b c : string) : a ++ b ++ c = (a ++ b) ++ c.
Proof.
  induction a as [|x a IH]; [done |].
  change (String x (a ++ b ++ c) = String x ((a ++ b) ++ c)). by rewrite IH.
Qed.

Lemma substring_all (s : string) : substring 0 (String.length s) s = s.
Proof. induction s as [|c s IH]; simpl; [done | by rewrite IH]. Qed.

Lemma substring_skip (p s : string) (n : nat) :
  substring (String.length p) n (p ++ s) = substring 0 n s.
Proof. induction p as [|c p IH]; simpl; [done | exact IH]. Qed.

(** The last [length t] characters of [p ++ t] are [t]. *)
Lemma substring_suffix (p t : string) :
  substring (String.length (p ++ t) - String.length t) (String.length t) (p ++ t) = t.
Proof.
  rewrite length_append.
  replace (String.length p + String.length t - String.length t)
    with (String.length p) by lia.
  rewrite substring_skip. apply substring_all.
Qed.

Lemma join_singleton (sep a : string) : JS.join sep [a] = a.
Proof. reflexivity. Qed.

Lemma join_cons (sep a b : string) (l : list string) :
  JS.join sep (a :: b :: l) = a ++ sep ++ JS.join sep (b :: l).
Proof. reflexivity. Qed.

Lemma truthy_Some (v : option string) :
  JS.truthy v = true <-> exists s, v = Some s /\ s <> "".
Proof.
  destruct v as [s|]; simpl.
  - rewrite negb_true_iff, String.eqb_neq. split.
    + intros H. by exists s.
    + intros (s' & [= <-] & H). done.
  - split; [done | intros (s & H & _); done].
Qed.

Lemma truthy_false (v : option string) :
  JS.truthy v = false <-> v = None \/ v = Some "".
Proof.
  destruct v as [s|]; simpl.
  - rewrite negb_false_iff, String.eqb_eq. split.
    + intros ->. by right.
    + intros [H | [= ->]]; done.
  - split; [by left | done].
Qed.

End Strings.

(** ** Execution normalizer: [createShellExecution] *)
Section Normalizer.

Lemma createShellExecution_commandLine (e : Execution) :
  commandLine (createShellExecution e)
  = Some (JS.template (JS.or (command e) (binary e)) ++ " " ++ JS.join " " (args e)).
Proof. reflexivity. Qed.

Lemma or_truthy_l (a b : option string) : JS.truthy a = true -> JS.or a b = a.
Proof. unfold JS.or. by intros ->. Qed.

Lemma or_falsy_l (a b : option string) : JS.truthy a = false -> JS.or a b = b.
Proof. unfold JS.or. by intros ->. Qed.

(** The awaited path and the normalizer agree as soon as [command] is a
    non-empty string. *)
Lemma taskCommandLine_truthy_command (e : Execution) :
  JS.truthy (command e) = true ->
  commandLine (createShellExecution e) = Some (taskCommandLine e).
Proof.
  intros H. rewrite createShellExecution_commandLine. unfold taskCommandLine.
  by rewrite (or_truthy_l _ _ H).
Qed.

Example createShellExecution_command :
  createShellExecution
    {| binary := Some "rls"; command := Some "cargo"; args := ["test"; "--all"];
       env := None; cwd := Some "/w" |}
  = ShellCommandLine "cargo test --all" {| optCwd := Some "/w"; optEnv := None |}.
Proof. reflexivity. Qed.

Example createShellExecution_no_args :
  commandLine (createShellExecution
    {| binary := Some "cargo"; command := None; args := []; env := None; cwd := None |})
  = Some "cargo ".
Proof. reflexivity. Qed.

(** C8: the command line built by [createShellExecution] ends with the
  arguments joined by single spaces, character for character: it is some
  prefix followed by [args.join(' ')], and its last characters, as many as
  the joined arguments have, are the joined arguments. *)
Theorem createShellExecution_ends_with_joined_args (R : Execution) :
  exists cl prefix,
  commandLine (createShellExecution R) = Some cl /\
  cl = prefix ++ JS.join " " (args R) /\
  substring (String.length cl - String.length (JS.join " " (args R)))
              (String.length (JS.join " " (args R))) cl
  = JS.join " " (args R).
Proof.
  exists (JS.template (JS.or (command R) (binary R)) ++ " " ++ JS.join " " (args R)).
  exists (JS.template (JS.or (command R) (binary R)) ++ " ").
  split; [apply createShellExecution_commandLine |].
  split; [apply append_assoc |].
  rewrite append_assoc. apply substring_suffix.
Qed.

(** C2, as the specification states it, fails: with [command] set to the
  empty string the [binary] field is not ignored, it becomes the program. *)
Lemma createShellExecution_empty_command_uses_binary :
  let e := {| binary := Some "rustc"; command := Some ""; args := ["build"];
              env := None; cwd := None |} in
  command e <> None /\
  commandLine (createShellExecution e) = Some "rustc build" /\
  commandLine (createShellExecution (setBinary (Some "cargo") e)) = Some "cargo build" /\
  createShellExecution (setBinary (Some "cargo") e) <> createShellExecution e.
Proof. cbv zeta. repeat split; done. Qed.

(** C2 (amended): when [command] is a non-empty string, [createShellExecution]
  ignores [binary] entirely; when [command] is absent or the empty string
  and [binary] is set, [binary] is the program name. *)
Theorem createShellExecution_prefers_command (e : Execution) (b' : option string)
  (b : string) :
  (JS.truthy (command e) = true ->
   createShellExecution (setBinary b' e) = createShellExecution e) /\
  (command e = None \/ command e = Some "" ->
   binary e = Some b ->
   commandLine (createShellExecution e) = Some (b ++ " " ++ JS.join " " (args e))).
Proof.
  split.
  - intros H. unfold createShellExecution, setBinary. simpl.
  by rewrite !(or_truthy_l _ _ H).
  - intros H Hb. rewrite createShellExecution_commandLine.
  apply truthy_false in H. by rewrite (or_falsy_l _ _ H), Hb.
Qed.

Lemma createShellExecution_prefers_command_witness :
  createShellExecution
  {| binary := Some "rls"; command := Some "cargo"; args := ["check"];
       env := None; cwd := None |}
  = createShellExecution
  {| binary := None; command := Some "cargo"; args := ["check"];
       env := None; cwd := None |}
  /\ commandLine (createShellExecution
       {| binary := Some "cargo"; command := None; args := ["check"];
          env := None; cwd := None |}) = Some "cargo check".
Proof.
  split.
  - symmetry.
  apply (proj1 (createShellExecution_prefers_command
             {| binary := Some "rls"; command := Some "cargo"; args := ["check"];
                env := None; cwd := None |} None "")).
  reflexivity.
  - apply (proj2 (createShellExecution_prefers_command
             {| binary := Some "cargo"; command := None; args := ["check"];
                env := None; cwd := None |} None "cargo")).
  + left. reflexivity.
  + reflexivity.
Defined.

(** C9, as the specification states it, fails: a request whose program name
  is the empty string ([command] is [""], no [binary]) does not yield a
  command line that begins with an empty token; the line begins with the
  word [undefined]. *)
Lemma createShellExecution_empty_program_undefined :
  let e := {| binary := None; command := Some ""; args := ["build"];
              env := None; cwd := None |} in
  Spec.program e = Some "" /\
  commandLine (createShellExecution e) = Some "undefined build" /\
  commandLine (createShellExecution e) <> Some (" " ++ JS.join " " (args e)).
Proof. cbv zeta. repeat split; done. Qed.

(** C9 (amended): [createShellExecution] has no error path, it returns a
  command-line [ShellExecution] for every request.  When [command || binary]
  is the empty string, that is [binary] is [""] and [command] is absent or
  empty, the line begins with an empty token: it is a space followed by the
  joined arguments.  When [binary] is absent and [command] is absent or
  empty, the line begins with the word [undefined]. *)
Theorem createShellExecution_total (e : Execution) :
  (exists cl, createShellExecution e
              = ShellCommandLine cl {| optCwd := cwd e; optEnv := env e |}) /\
  (JS.truthy (command e) = false -> binary e = Some "" ->
   commandLine (createShellExecution e) = Some (" " ++ JS.join " " (args e))) /\
  (JS.truthy (command e) = false -> binary e = None ->
   commandLine (createShellExecution e) = Some ("undefined " ++ JS.join " " (args e))).
Proof.
  split; [by eexists |].
  split; intros H Hb; rewrite createShellExecution_commandLine;
  by rewrite (or_falsy_l _ _ H), Hb.
Qed.

Lemma createShellExecution_total_witness :
  commandLine (createShellExecution
  {| binary := Some ""; command := None; args := ["build"; "--release"];
       env := None; cwd := None |}) = Some " build --release"
  /\ commandLine (createShellExecution
  {| binary := None; command := None; args := ["build"; "--release"];
       env := None; cwd := None |}) = Some "undefined build --release".
Proof.
  split.
  - apply (proj1 (proj2 (createShellExecution_total
             {| binary := Some ""; command := None; args := ["build"; "--release"];
                env := None; cwd := None |}))); reflexivity.
  - apply (proj2 (proj2 (createShellExecution_total
             {| binary := None; command := None; args := ["build"; "--release"];
                env := None; cwd := None |}))); reflexivity.
Defined.

End Normalizer.

(** C1: on a request that names its program in the deprecated [binary] field
    only, the awaited path does not use the 4.1 normalization: the line it
    executes and waits for starts with [undefined], where
    [createShellExecution] falls back to [binary]. *)
Theorem runTaskCommand_misses_binary_fallback :
  let e := {| binary := Some "cargo"; command := None; args := ["build"];
              env := None; cwd := None |} in
  let folder := {| uri := {| fsPath := "/w" |}; folderName := "w"; index := 0 |} in
  let h := {| workspaceFolders := Some [folder]; executed := []; endListeners := [];
              resolveCalls := []; nextPromise := 0 |} in
  commandLine (createShellExecution e) = Some "cargo build" /\
  taskCommandLine e = "undefined build" /\
  exists h', runTaskCommand e "build" (Some folder) h = JS.Ok (0, h') /\
    endListeners h' = [{| promise := 0; key := "undefined build" |}] /\
    execution <$> executed h'
    = [ShellExec (ShellCommandLine "undefined build"
                    {| optCwd := Some "/w"; optEnv := None |})].
Proof. cbv zeta. split; [done |]. split; [done |]. eexists. by repeat split. Qed.

(** ** Task catalog: [detectCargoTasks] *)
Section Catalog.

Example detectCargoTasks_labels :
  name <$> detectCargoTasks
             {| uri := {| fsPath := "/home/me/hello" |}; folderName := "hello"; index := 0 |}
  = ["cargo build - hello"; "cargo check - hello"; "cargo test - hello";
     "cargo clean - hello"; "cargo run - hello"].
Proof. reflexivity. Qed.

(** C3: for every project root the catalog is five tasks, for the
    subcommands build, check, test, clean, run in this order, each labeled
    [cargo <subcommand> - <root name>] and running [cargo <subcommand>] in
    the root; build and check are in the build group, test in the test
    group, clean in the clean group and run in none. *)
Theorem detectCargoTasks_catalog (target : WorkspaceFolder) :
  length (detectCargoTasks target) = 5 /\
  (fun t => defCommand (definition t)) <$> detectCargoTasks target
  = [Some "build"; Some "check"; Some "test"; Some "clean"; Some "run"] /\
  name <$> detectCargoTasks target
  = (fun c => "cargo " ++ c ++ " - " ++ folderName target)
      <$> ["build"; "check"; "test"; "clean"; "run"] /\
  execution <$> detectCargoTasks target
  = (fun c => ShellExec (ShellCommandLine ("cargo " ++ c)
                {| optCwd := Some (fsPath (uri target)); optEnv := None |}))
      <$> ["build"; "check"; "test"; "clean"; "run"] /\
  group <$> detectCargoTasks target
  = [Some Build; Some Build; Some Test; Some Clean; None].
Proof. repeat split. Qed.

End Catalog.

(** ** Task resolver: [resolveCargoTask] *)
Section Resolver.

Lemma resolveCargoTask_guard (task : Task) (target : WorkspaceFolder) :
  is_Some (resolveCargoTask task target) <->
  type (definition task) = "cargo" /\ JS.truthy (defCommand (definition task)) = true.
Proof.
  unfold resolveCargoTask.
  destruct (String.eqb_spec (type (definition task)) "cargo") as [Ht | Ht];
    destruct (defCommand (definition task)) as [c|] eqn:Hc; simpl.
  - destruct (String.eqb_spec c "") as [-> | Hne]; simpl.
    + split; [intros [? [=]] | intros [_ [=]]].
    + split; [done | by eexists].
  - split; [intros [? [=]] | intros [_ [=]]].
  - split; [intros [? [=]] | intros [? _]; done].
  - split; [intros [? [=]] | intros [? _]; done].
Qed.

(** C4: the resolver is total, and it declines, returning [undefined],
    exactly when the definition's [type] is not ['cargo'] or its [command]
    is absent or the empty string; every other definition gives a task. *)
Theorem resolveCargoTask_not_handled_iff (task : Task) (target : WorkspaceFolder) :
  (resolveCargoTask task target = None <->
     type (definition task) <> "cargo" \/
     defCommand (definition task) = None \/
     defCommand (definition task) = Some "") /\
  (is_Some (resolveCargoTask task target) <->
     type (definition task) = "cargo" /\
     exists c, defCommand (definition task) = Some c /\ c <> "").
Proof.
  split.
  - rewrite eq_None_not_Some, resolveCargoTask_guard.
    assert (defCommand (definition task) = None \/
            defCommand (definition task) = Some ""
            <-> JS.truthy (defCommand (definition task)) = false) as ->
      by (symmetry; apply truthy_false).
    destruct (decide (type (definition task) = "cargo"));
      destruct (JS.truthy (defCommand (definition task))); intuition congruence.
  - rewrite resolveCargoTask_guard, truthy_Some. done.
Qed.

(** C5: for a resolvable definition the task runs the program ['cargo'] on
    the arguments [definition.command] followed by [definition.args] (none
    when absent), with the definition's [cwd] and [env]; the canonical
    command line of that execution is [cargo] and those arguments joined by
    single spaces. *)
Theorem resolveCargoTask_program_and_args
    (task : Task) (target : WorkspaceFolder) (c : string) :
  type (definition task) = "cargo" ->
  defCommand (definition task) = Some c ->
  c <> "" ->
  exists t se,
    resolveCargoTask task target = Some t /\
    execution t = ShellExec se /\
    se = ShellCommandArgs "cargo"
           (c :: JS.nullish (defArgs (definition task)) [])
           {| optCwd := defCwd (definition task); optEnv := defEnv (definition task) |} /\
    Spec.canonicalCommandLine se
    = Some (JS.join " " ("cargo" :: c :: JS.nullish (defArgs (definition task)) [])).
Proof.
  intros Ht Hc Hne. unfold resolveCargoTask. rewrite Ht, Hc. simpl.
  apply String.eqb_neq in Hne. rewrite Hne. simpl.
  eexists _, _. repeat split.
Qed.

Lemma resolveCargoTask_program_and_args_witness :
  let d := {| type := "cargo"; defCommand := Some "build";
              defArgs := Some ["--release"]; defCwd := None; defEnv := None |} in
  let target := {| uri := {| fsPath := "/w" |}; folderName := "w"; index := 0 |} in
  let task := {| definition := d; scope := Some target; name := "release build";
                 source := "Workspace"; execution := NoExec;
                 problemMatchers := None; group := None |} in
  exists t se,
    resolveCargoTask task target = Some t /\
    execution t = ShellExec se /\
    se = ShellCommandArgs "cargo" ["build"; "--release"]
           {| optCwd := None; optEnv := None |} /\
    Spec.canonicalCommandLine se = Some "cargo build --release".
Proof.
  cbv zeta.
  apply (resolveCargoTask_program_and_args
           {| definition := {| type := "cargo"; defCommand := Some "build";
                               defArgs := Some ["--release"]; defCwd := None;
                               defEnv := None |};
              scope := Some {| uri := {| fsPath := "/w" |}; folderName := "w"; index := 0 |};
              name := "release build"; source := "Workspace"; execution := NoExec;
              problemMatchers := None; group := None |}
           {| uri := {| fsPath := "/w" |}; folderName := "w"; index := 0 |}
           "build"); [reflexivity | reflexivity | discriminate].
Defined.

(** A resolved task's shell execution is in the command-and-arguments form:
    it has no [commandLine] of its own. *)
Lemma resolveCargoTask_no_commandLine (task t : Task) (target : WorkspaceFolder) :
  resolveCargoTask task target = Some t ->
  exists se, execution t = ShellExec se /\ commandLine se = None.
Proof.
  unfold resolveCargoTask.
  destruct (_ && _); [| done]. destruct (defCommand _); [| done].
  intros [= <-]. by eexists.
Qed.

End Resolver.

(** ** Problem matchers of the tasks the module builds *)
Section Matchers.

(** C7, as the specification states it, fails: the task of an awaited
    submission is built without problem matchers, and a resolved definition
    keeps the matchers of the task it resolves, whatever they are. *)
Lemma tasks_without_rustc_matcher :
  let e := {| binary := None; command := Some "rustup"; args := ["update"];
              env := None; cwd := None |} in
  let folder := {| uri := {| fsPath := "/w" |}; folderName := "w"; index := 0 |} in
  let d := {| type := "cargo"; defCommand := Some "build"; defArgs := None;
              defCwd := None; defEnv := None |} in
  let task := {| definition := d; scope := Some folder; name := "build";
                 source := "Workspace"; execution := NoExec;
                 problemMatchers := Some ["$gcc"]; group := None |} in
  (exists h', runTaskCommand e "update" (Some folder) (emptyHost None) = JS.Ok (0, h') /\
     problemMatchers <$> executed h' = [Some []]) /\
  (exists t, resolveCargoTask task folder = Some t /\
     problemMatchers t = Some ["$gcc"]) /\
  ("$rustc" ∉ @nil string) /\ ("$rustc" ∉ ["$gcc"]).
Proof.
  cbv zeta. split; [by eexists |]. split; [by eexists |].
  split; [apply not_elem_of_nil |].
  intros H. apply list_elem_of_singleton in H. discriminate.
Qed.

(** C7 (amended): every catalog entry and every fire-and-forget advisory
    task carries exactly the matcher list [['$rustc']]; a resolved definition
    carries the matcher list of the task it resolves, and [['$rustc']] when
    that task has none; the task of an awaited submission carries no
    matcher. *)
Theorem problemMatchers_of_built_tasks :
  (forall target t, t ∈ detectCargoTasks target -> problemMatchers t = Some ["$rustc"]) /\
  (forall folder e, problemMatchers (runRlsCommandTask folder e) = Some ["$rustc"]) /\
  (forall task target t, resolveCargoTask task target = Some t ->
     problemMatchers t = Some (JS.nullish (problemMatchers task) ["$rustc"])) /\
  (forall e displayName folder sc,
     problemMatchers (runTaskCommandTask e displayName folder sc) = Some []) /\
  (forall e displayName folder h p h',
     runTaskCommand e displayName folder h = JS.Ok (p, h') ->
     exists t, executed h' = t :: executed h /\ problemMatchers t = Some []).
Proof.
  split; [| split; [| split; [| split]]].
  - intros target t Ht. unfold detectCargoTasks in Ht.
    apply list_elem_of_fmap in Ht as (d & -> & Hd).
    apply list_elem_of_fmap in Hd as ([c g] & -> & _). reflexivity.
  - reflexivity.
  - intros task target t. unfold resolveCargoTask.
    destruct (_ && _); [| done]. destruct (defCommand _); [| done].
    by intros [= <-].
  - reflexivity.
  - intros e displayName folder h p h'. unfold runTaskCommand.
    destruct (taskScope folder h) as [sc | err]; [| done].
    intros [= <- <-]. by eexists.
Qed.

Lemma problemMatchers_of_built_tasks_witness :
  let folder := {| uri := {| fsPath := "/w" |}; folderName := "w"; index := 0 |} in
  let task := {| definition := {| type := "cargo"; defCommand := Some "doc";
                                  defArgs := None; defCwd := None; defEnv := None |};
                 scope := None; name := "doc"; source := "Workspace";
                 execution := NoExec; problemMatchers := None; group := None |} in
  let resolved := new_Task (definition task) (Some folder) "doc" TASK_SOURCE
                    (ShellExec (ShellCommandArgs "cargo" ["doc"]
                                  {| optCwd := None; optEnv := None |}))
                    (Some ["$rustc"]) in
  resolveCargoTask task folder = Some resolved /\
  problemMatchers resolved = Some ["$rustc"].
Proof.
  cbv zeta. split; [reflexivity |].
  refine (proj1 (proj2 (proj2 problemMatchers_of_built_tasks))
            {| definition := {| type := "cargo"; defCommand := Some "doc";
                                defArgs := None; defCwd := None; defEnv := None |};
               scope := None; name := "doc"; source := "Workspace";
               execution := NoExec; problemMatchers := None; group := None |}
            {| uri := {| fsPath := "/w" |}; folderName := "w"; index := 0 |}
            _ _).
  reflexivity.
Defined.

End Matchers.

(** ** Completion correlator: the listener of [runTaskCommand] *)
Section Correlator.

Implicit Types (h : Host) (l : EndListener) (t : Task) (p : nat).

Lemma matchesCommandLine_inv (k : string) t :
  matchesCommandLine k t = true <->
  exists opts, execution t = ShellExec (ShellCommandLine k opts).
Proof.
  unfold matchesCommandLine. split.
  - destruct (execution t) as [| [cl o | c a o] | |]; try done.
    intros H%bool_decide_eq_true. simpl in H. injection H as ->. by eexists.
  - intros [opts ->]. by apply bool_decide_eq_true.
Qed.

(** One ended task matches at most one command line. *)
Lemma matchesCommandLine_functional (k1 k2 : string) t :
  matchesCommandLine k1 t = true -> matchesCommandLine k2 t = true -> k1 = k2.
Proof.
  intros [o1 H1]%matchesCommandLine_inv [o2 H2]%matchesCommandLine_inv.
  congruence.
Qed.

Lemma NoDup_fmap_eq {A B} (f : A -> B) (xs : list A) (x y : A) :
  NoDup (f <$> xs) -> x ∈ xs -> y ∈ xs -> f x = f y -> x = y.
Proof.
  induction xs as [|a xs IH]; intros Hnd Hx Hy Hf; [by apply elem_of_nil in Hx |].
  rewrite fmap_cons in Hnd. apply NoDup_cons in Hnd as [Ha Hnd].
  apply elem_of_cons in Hx as [-> | Hx]; apply elem_of_cons in Hy as [-> | Hy].
  - done.
  - exfalso. apply Ha. rewrite Hf. by apply list_elem_of_fmap_2.
  - exfalso. apply Ha. rewrite <- Hf. by apply list_elem_of_fmap_2.
  - by apply IH.
Qed.

Lemma filter_all {A} (P : A -> Prop) `{!forall x, Decision (P x)} (xs : list A) :
  (forall x, x ∈ xs -> P x) -> filter P xs = xs.
Proof.
  induction xs as [|a xs IH]; intros HP; [done |].
  rewrite filter_cons_True by (apply HP; left).
  f_equal. apply IH. intros x Hx. apply HP. by right.
Qed.

(** The state after the listeners [ls] have run on the ended task [t]. *)
Lemma foldl_endTaskListener t (ls : list EndListener) h :
  let hit := promise <$> filter (fun l => matchesCommandLine (key l) t = true) ls in
  let h' := foldl (fun h l => endTaskListener l t h) h ls in
  endListeners h' = filter (fun l => promise l ∉ hit) (endListeners h) /\
  resolveCalls h' = (reverse hit ++ resolveCalls h)%list /\
  nextPromise h' = nextPromise h /\
  workspaceFolders h' = workspaceFolders h /\
  executed h' = executed h.
Proof.
  revert h. induction ls as [|l ls IH]; intros h; simpl.
  - repeat split; try done.
    symmetry. apply filter_all. intros l _. apply not_elem_of_nil.
  - destruct (IH (endTaskListener l t h)) as (IHl & IHr & IHn & IHw & IHe).
    rewrite IHl, IHr, IHn, IHw, IHe. clear IH IHl IHr IHn IHw IHe.
    unfold endTaskListener. rewrite filter_cons.
    destruct (matchesCommandLine (key l) t) eqn:Hm.
    + rewrite decide_True by done. simpl. rewrite reverse_cons.
      repeat split; try done.
      * rewrite list_filter_filter. apply list_filter_iff. intros l'.
        rewrite elem_of_cons. intuition.
      * by rewrite <- (assoc_L (++)).
    + rewrite decide_False by done. done.
Qed.

Lemma fireDidEndTask_listeners t h l :
  wf h ->
  l ∈ endListeners (fireDidEndTask t h) <->
  l ∈ endListeners h /\ matchesCommandLine (key l) t = false.
Proof.
  intros (Hnd & _). unfold fireDidEndTask.
  destruct (foldl_endTaskListener t (endListeners h) h) as (-> & _).
  rewrite list_elem_of_filter, list_elem_of_fmap. split.
  - intros [Hhit Hl]. split; [done |].
    destruct (matchesCommandLine (key l) t) eqn:Hm; [| done].
    exfalso. apply Hhit. exists l. split; [done |]. by apply list_elem_of_filter.
  - intros [Hl Hm]. split; [| done].
    intros (l' & Hp & [Hm' Hl']%list_elem_of_filter).
    assert (l = l') as <- by (eapply NoDup_fmap_eq; eauto). congruence.
Qed.

Lemma fireDidEndTask_resolveCalls t h p :
  p ∈ resolveCalls (fireDidEndTask t h) <->
  p ∈ resolveCalls h \/
  exists l, l ∈ endListeners h /\ promise l = p /\ matchesCommandLine (key l) t = true.
Proof.
  unfold fireDidEndTask.
  destruct (foldl_endTaskListener t (endListeners h) h) as (_ & -> & _).
  rewrite elem_of_app, elem_of_reverse, list_elem_of_fmap.
  split.
  - intros [(l & -> & [Hm Hl]%list_elem_of_filter) | Hp]; [right | by left].
    by exists l.
  - intros [Hp | (l & Hl & <- & Hm)]; [by right | left].
    exists l. split; [done |]. by apply list_elem_of_filter.
Qed.

Lemma fireDidEndTask_nextPromise t h :
  nextPromise (fireDidEndTask t h) = nextPromise h.
Proof.
  unfold fireDidEndTask.
  by destruct (foldl_endTaskListener t (endListeners h) h) as (_ & _ & -> & _).
Qed.

Lemma NoDup_fmap_filter {A B} (f : A -> B) (P : A -> Prop)
    `{!forall x, Decision (P x)} (xs : list A) :
  NoDup (f <$> xs) -> NoDup (f <$> filter P xs).
Proof.
  induction xs as [|a xs IH]; [done |].
  rewrite fmap_cons, NoDup_cons. intros [Ha Hnd].
  rewrite filter_cons. destruct (decide (P a)); [| by apply IH].
  rewrite fmap_cons. apply NoDup_cons. split; [| by apply IH].
  intros (x & Hx & [_ Hin]%list_elem_of_filter)%list_elem_of_fmap.
  apply Ha. rewrite Hx. by apply list_elem_of_fmap_2.
Qed.

Lemma wf_emptyHost (folders : option (list WorkspaceFolder)) : wf (emptyHost folders).
Proof.
  unfold wf, emptyHost. simpl.
  split; [apply NoDup_nil_2 |].
  split; [by intros l Hl%elem_of_nil |].
  split; [by intros p Hp%elem_of_nil | apply NoDup_nil_2].
Qed.

Lemma wf_fireDidEndTask t h : wf h -> wf (fireDidEndTask t h).
Proof.
  intros (Hnd & Hlt & Hres & Hndr). unfold wf, fireDidEndTask.
  destruct (foldl_endTaskListener t (endListeners h) h) as (-> & -> & -> & _).
  split; [by apply NoDup_fmap_filter |].
  split; [intros l [_ Hl]%list_elem_of_filter; by apply Hlt |].
  split.
  - intros p [Hp | Hp]%elem_of_app.
    + rewrite elem_of_reverse in Hp. split.
      * apply list_elem_of_fmap in Hp as (l & -> & [_ Hl]%list_elem_of_filter).
        by apply Hlt.
      * intros (l & -> & [Hl _]%list_elem_of_filter)%list_elem_of_fmap. by apply Hl.
    + destruct (Hres p Hp) as [Hp1 Hp2]. split; [done |].
      intros (l & -> & [_ Hl]%list_elem_of_filter)%list_elem_of_fmap.
      apply Hp2. by apply list_elem_of_fmap_2.
  - apply NoDup_app. split; [| split; [| done]].
    + rewrite reverse_Permutation. by apply NoDup_fmap_filter.
    + intros p Hp Hp'. rewrite elem_of_reverse in Hp.
      destruct (Hres p Hp') as [_ Hp2]. apply Hp2.
      apply list_elem_of_fmap in Hp as (l & -> & [_ Hl]%list_elem_of_filter).
      by apply list_elem_of_fmap_2.
Qed.

(** What an awaited submission does to the host. *)
Lemma runTaskCommand_Ok e displayName folder h p h' :
  runTaskCommand e displayName folder h = JS.Ok (p, h') ->
  p = nextPromise h /\
  endListeners h' = (endListeners h ++ [{| promise := p; key := taskCommandLine e |}])%list /\
  resolveCalls h' = resolveCalls h /\
  nextPromise h' = S (nextPromise h) /\
  exists sc, executed h' = runTaskCommandTask e displayName folder sc :: executed h.
Proof.
  unfold runTaskCommand. destruct (taskScope folder h) as [sc | err]; [| done].
  intros [= <- <-]. repeat split. by exists sc.
Qed.

(** The submission succeeds as soon as a folder is passed or the workspace
    has folders. *)
Lemma runTaskCommand_returns e displayName folder h :
  is_Some folder \/ is_Some (workspaceFolders h) ->
  exists h', runTaskCommand e displayName folder h = JS.Ok (nextPromise h, h').
Proof.
  unfold runTaskCommand, taskScope.
  intros [[f ->] | [fs Hfs]]; [by eexists |].
  destruct folder; rewrite ?Hfs; by eexists.
Qed.

Lemma wf_runTaskCommand e displayName folder h p h' :
  runTaskCommand e displayName folder h = JS.Ok (p, h') -> wf h -> wf h'.
Proof.
  intros (-> & Hl & Hr & Hn & _)%runTaskCommand_Ok (Hnd & Hlt & Hres & Hndr).
  unfold wf. rewrite Hl, Hr, Hn, fmap_app. simpl.
  split; [| split; [| split; [| done]]].
  - apply NoDup_app. split; [done |]. split; [| apply NoDup_singleton].
    intros q (l & -> & Hin)%list_elem_of_fmap Hq%list_elem_of_singleton.
    specialize (Hlt l Hin). lia.
  - intros l [Hin | ->%list_elem_of_singleton]%elem_of_app; simpl; [| lia].
    specialize (Hlt l Hin). lia.
  - intros q Hq. destruct (Hres q Hq) as [Hq1 Hq2]. split; [lia |].
    intros [Hin | ->%list_elem_of_singleton]%elem_of_app; [done | lia].
Qed.

Lemma wf_step h (ev : HostEvent) : wf h -> wf (step h ev).
Proof.
  destruct ev as [e n f | t]; simpl; [| apply wf_fireDidEndTask].
  destruct (runTaskCommand e n f h) as [[p h'] | err] eqn:Hrun; [| done].
  by eapply wf_runTaskCommand.
Qed.

Lemma wf_run (evs : list HostEvent) h : wf h -> wf (run evs h).
Proof.
  revert h. induction evs as [|ev evs IH]; intros h Hwf; [done |].
  apply IH. by apply wf_step.
Qed.

(** A fulfilled promise stays fulfilled. *)
Lemma resolveCalls_step h (ev : HostEvent) p :
  p ∈ resolveCalls h -> p ∈ resolveCalls (step h ev).
Proof.
  destruct ev as [e n f | t]; simpl.
  - destruct (runTaskCommand e n f h) as [[q h'] | err] eqn:Hrun; [| done].
    apply runTaskCommand_Ok in Hrun as (_ & _ & -> & _). done.
  - intros Hp. apply fireDidEndTask_resolveCalls. by left.
Qed.

Lemma resolveCalls_run (evs : list HostEvent) h p :
  p ∈ resolveCalls h -> p ∈ resolveCalls (run evs h).
Proof.
  revert h. induction evs as [|ev evs IH]; intros h Hp; [done |].
  apply IH. by apply resolveCalls_step.
Qed.

(** The life of one subscribed listener over any continuation of the host:
    its promise is fulfilled exactly when some task that ended matched its
    key, and it is subscribed exactly as long as that has not happened. *)
Lemma run_listener (evs : list HostEvent) h l :
  wf h -> l ∈ endListeners h ->
  (promise l ∈ resolveCalls (run evs h) <->
     exists t, TaskEnded t ∈ evs /\ matchesCommandLine (key l) t = true) /\
  (l ∈ endListeners (run evs h) <-> promise l ∉ resolveCalls (run evs h)).
Proof.
  revert h. induction evs as [|ev evs IH]; intros h Hwf Hl.
  - simpl. destruct Hwf as (_ & _ & Hres & _).
    assert (promise l ∉ resolveCalls h) as Hnot.
    { intros Hp. destruct (Hres _ Hp) as [_ Hp2]. apply Hp2.
      by apply list_elem_of_fmap_2. }
    split; [| done]. split; [done |]. by intros (t & Ht%elem_of_nil & _).
  - change (run (ev :: evs) h) with (run evs (step h ev)).
    pose proof (wf_step h ev Hwf) as Hwf'.
    destruct ev as [e n f | t].
    + assert (l ∈ endListeners (step h (Submit e n f))) as Hl'.
      { simpl. destruct (runTaskCommand e n f h) as [[q h'] | err] eqn:Hrun; [| done].
        apply runTaskCommand_Ok in Hrun as (_ & -> & _).
        apply elem_of_app. by left. }
      destruct (IH _ Hwf' Hl') as [IH1 IH2]. split; [| done].
      rewrite IH1. split; intros (t & Ht & Hm); exists t; (split; [| done]).
      * by right.
      * by apply elem_of_cons in Ht as [[=] | Ht].
    + destruct (matchesCommandLine (key l) t) eqn:Hm.
      * assert (promise l ∈ resolveCalls (run evs (step h (TaskEnded t)))) as Hp.
        { apply resolveCalls_run. simpl. apply fireDidEndTask_resolveCalls.
          right. by exists l. }
        split.
        -- split; [| done]. intros _. exists t. split; [left | done].
        -- split; [| done]. intros Hin. exfalso.
           destruct (wf_run evs _ Hwf') as (_ & _ & Hres & _).
           destruct (Hres _ Hp) as [_ Hp2]. apply Hp2.
           by apply list_elem_of_fmap_2.
      * assert (l ∈ endListeners (step h (TaskEnded t))) as Hl'.
        { simpl. by apply fireDidEndTask_listeners. }
        destruct (IH _ Hwf' Hl') as [IH1 IH2]. split; [| done].
        rewrite IH1. split; intros (t' & Ht & Hm'); exists t'; (split; [| done]).
        -- by right.
        -- apply elem_of_cons in Ht as [[= ->] | Ht]; [congruence | done].
Qed.

Lemma run_app (evs1 evs2 : list HostEvent) h :
  run (evs1 ++ evs2) h = run evs2 (run evs1 h).
Proof. apply foldl_app. Qed.

Lemma fireDidEndTask_non_shell t h :
  (forall se, execution t <> ShellExec se) -> fireDidEndTask t h = h.
Proof.
  intros Hne. unfold fireDidEndTask.
  assert (forall k, matchesCommandLine k t = false) as Hm.
  { intros k. unfold matchesCommandLine.
    destruct (execution t) as [| se | |]; try done. by destruct (Hne se). }
  generalize (endListeners h) as ls. intros ls. revert h.
  induction ls as [|l ls IH]; intros h; [done |].
  simpl. unfold endTaskListener at 2. rewrite Hm. apply IH.
Qed.

(** The listener's test succeeds exactly when the command line of the task
    that ended is the key. *)
Lemma matchesCommandLine_ended (k : string) t :
  matchesCommandLine k t = true <-> endedCommandLine t = Some k.
Proof.
  unfold matchesCommandLine, endedCommandLine.
  destruct (execution t) as [| se | |]; try done.
  apply bool_decide_eq_true.
Qed.

Lemma matchesCommandLine_not_ended (k : string) t :
  matchesCommandLine k t = false <-> endedCommandLine t <> Some k.
Proof.
  rewrite <- matchesCommandLine_ended.
  destruct (matchesCommandLine k t); split; done.
Qed.

(** C6: an awaited submission returns with its listener subscribed, under
    the command line it builds, and its promise pending.  Whenever a task
    ends while the listener is subscribed: if the command line of the ended
    task is the key, the listener is removed and the promise fulfilled; if
    it is anything else, the listener stays subscribed and the promise
    pending.  Over any continuation of the host no promise is fulfilled
    twice, the promise is fulfilled exactly when a task whose command line
    is the key has ended, and the listener is subscribed exactly until then.
    For a second awaited submission with a different command line: it has
    its own promise; each of the two promises is fulfilled exactly by the
    tasks that ended after its submission with its own command line; and a
    task ending with the command line of one of them never fulfills the
    other's pending promise. *)
Theorem awaited_completion_correlation
    (e : Execution) (displayName : string) (folder : option WorkspaceFolder)
    (h h1 : Host) (p : nat) :
  wf h ->
  runTaskCommand e displayName folder h = JS.Ok (p, h1) ->
  let l := {| promise := p; key := taskCommandLine e |} in
  l ∈ endListeners h1 /\
  (p ∉ resolveCalls h1) /\
  (forall evs t, l ∈ endListeners (run evs h1) ->
     (endedCommandLine t = Some (taskCommandLine e) ->
        (l ∉ endListeners (fireDidEndTask t (run evs h1))) /\
        p ∈ resolveCalls (fireDidEndTask t (run evs h1))) /\
     (endedCommandLine t <> Some (taskCommandLine e) ->
        l ∈ endListeners (fireDidEndTask t (run evs h1)) /\
        (p ∉ resolveCalls (fireDidEndTask t (run evs h1))))) /\
  (forall evs,
     NoDup (resolveCalls (run evs h1)) /\
     (p ∈ resolveCalls (run evs h1) <->
        exists t, TaskEnded t ∈ evs /\
                  endedCommandLine t = Some (taskCommandLine e)) /\
     (l ∈ endListeners (run evs h1) <-> p ∉ resolveCalls (run evs h1))) /\
  (forall evs1 e2 displayName2 folder2 p2 h3,
     runTaskCommand e2 displayName2 folder2 (run evs1 h1) = JS.Ok (p2, h3) ->
     taskCommandLine e2 <> taskCommandLine e ->
     p2 <> p /\
     forall evs2,
       (p2 ∈ resolveCalls (run evs2 h3) <->
          exists t, TaskEnded t ∈ evs2 /\
                    endedCommandLine t = Some (taskCommandLine e2)) /\
       (p ∈ resolveCalls (run evs2 h3) <->
          exists t, TaskEnded t ∈ (evs1 ++ evs2)%list /\
                    endedCommandLine t = Some (taskCommandLine e)) /\
       (forall t, endedCommandLine t = Some (taskCommandLine e2) ->
          p ∉ resolveCalls (run evs2 h3) ->
          p ∉ resolveCalls (fireDidEndTask t (run evs2 h3))) /\
       (forall t, endedCommandLine t = Some (taskCommandLine e) ->
          p2 ∉ resolveCalls (run evs2 h3) ->
          p2 ∉ resolveCalls (fireDidEndTask t (run evs2 h3)))).
Proof.
  intros Hwf Hrun l.
  pose proof (wf_runTaskCommand _ _ _ _ _ _ Hrun Hwf) as Hwf1.
  assert (l ∈ endListeners h1) as Hl.
  { apply runTaskCommand_Ok in Hrun as (_ & -> & _). apply elem_of_app. right. left. }
  assert (forall evs, wf (run evs h1)) as Hwfr by (intros evs; by apply wf_run).
  (* the promise of a subscribed listener, over any continuation *)
  assert (forall (l' : EndListener) h' evs, wf h' -> l' ∈ endListeners h' ->
            promise l' ∈ resolveCalls (run evs h') <->
            exists t, TaskEnded t ∈ evs /\ endedCommandLine t = Some (key l')) as Hres.
  { intros l' h' evs Hwf' Hl'.
    rewrite (proj1 (run_listener evs h' l' Hwf' Hl')).
    split; intros (t & Ht & Hm); exists t; (split; [done |]);
      by apply matchesCommandLine_ended. }
  assert (forall h' evs, wf h' -> l ∈ endListeners h' ->
            p ∈ resolveCalls (run evs h') <->
            exists t, TaskEnded t ∈ evs /\
                      endedCommandLine t = Some (taskCommandLine e)) as Hresl
    by (intros h' evs; apply (Hres l)).
  split; [done |]. split.
  { apply (proj2 (run_listener [] h1 l Hwf1 Hl)). done. }
  split; [| split].
  - intros evs t Hin.
    pose proof (Hresl (run evs h1) [TaskEnded t] (Hwfr evs) Hin) as H1.
    pose proof (proj2 (run_listener [TaskEnded t] (run evs h1) l (Hwfr evs) Hin)) as H2.
    change (run [TaskEnded t] (run evs h1))
      with (fireDidEndTask t (run evs h1)) in H1, H2.
    change (promise l) with p in H2.
    split; intros Hm.
    + assert (p ∈ resolveCalls (fireDidEndTask t (run evs h1))) as Hp.
      { apply H1. exists t. split; [left | done]. }
      split; [| done]. intros Hin'. by apply H2 in Hin'.
    + assert (p ∉ resolveCalls (fireDidEndTask t (run evs h1))) as Hp.
      { intros (t' & Ht & Hm')%H1.
        by apply list_elem_of_singleton in Ht as [= ->]. }
      split; [by apply H2 | done].
  - intros evs. split; [apply (Hwfr evs) |]. split.
    + apply (Hresl h1 evs Hwf1 Hl).
    + apply (run_listener evs h1 l Hwf1 Hl).
  - intros evs1 e2 n2 f2 p2 h3 Hrun2 Hne.
    pose proof (runTaskCommand_Ok _ _ _ _ _ _ Hrun2) as (Hp2 & Hl2 & _).
    pose proof (wf_runTaskCommand _ _ _ _ _ _ Hrun2 (Hwfr evs1)) as Hwf3.
    set (l2 := {| promise := p2; key := taskCommandLine e2 |}) in *.
    assert (l2 ∈ endListeners h3) as Hin2.
    { rewrite Hl2. apply elem_of_app. right. left. }
    assert (forall evs2, run evs2 h3 = run (evs1 ++ Submit e2 n2 f2 :: evs2)%list h1)
      as Heq.
    { intros evs2. rewrite run_app.
      change (run (Submit e2 n2 f2 :: evs2) (run evs1 h1))
        with (run evs2 (step (run evs1 h1) (Submit e2 n2 f2))).
      simpl. by rewrite Hrun2. }
    assert (forall evs2,
              p2 ∈ resolveCalls (run evs2 h3) <->
              exists t, TaskEnded t ∈ evs2 /\
                        endedCommandLine t = Some (taskCommandLine e2)) as Hown2.
    { intros evs2. apply (Hres l2 h3 evs2 Hwf3 Hin2). }
    assert (forall evs2,
              p ∈ resolveCalls (run evs2 h3) <->
              exists t, TaskEnded t ∈ (evs1 ++ evs2)%list /\
                        endedCommandLine t = Some (taskCommandLine e)) as Hown.
    { intros evs2. rewrite Heq.
      rewrite (Hresl h1 (evs1 ++ Submit e2 n2 f2 :: evs2)%list Hwf1 Hl).
      split; intros (t & Ht & Hm); exists t; (split; [| done]).
      * apply elem_of_app in Ht as [Ht | Ht]; apply elem_of_app; [by left | right].
        by apply elem_of_cons in Ht as [[=] | Ht].
      * apply elem_of_app in Ht as [Ht | Ht]; apply elem_of_app; [by left | right].
        by right. }
    split.
    { destruct (Hwfr evs1) as (_ & Hlt & Hrc & _).
      destruct (decide (p ∈ resolveCalls (run evs1 h1))) as [Hp | Hp].
      * destruct (Hrc p Hp) as [Hlt' _]. lia.
      * apply (run_listener evs1 h1 l Hwf1 Hl) in Hp.
        specialize (Hlt l Hp). simpl in Hlt. lia. }
    intros evs2. split; [apply Hown2 |]. split; [apply Hown |].
    assert (forall t, fireDidEndTask t (run evs2 h3)
                      = run (evs2 ++ [TaskEnded t])%list h3) as Hfire
      by (intros t; by rewrite run_app).
    split; intros t Hm Hpending; rewrite Hfire.
    + rewrite Hown. intros (t' & Ht & Hm'). apply Hpending, Hown.
      rewrite (assoc_L (++)) in Ht.
      apply elem_of_app in Ht as [Ht | [= ->]%list_elem_of_singleton]; [by exists t' |].
      congruence.
    + rewrite Hown2. intros (t' & Ht & Hm'). apply Hpending, Hown2.
      apply elem_of_app in Ht as [Ht | [= ->]%list_elem_of_singleton]; [by exists t' |].
      congruence.
Qed.

Lemma awaited_completion_correlation_witness :
  let folder := {| uri := {| fsPath := "/w" |}; folderName := "w"; index := 0 |} in
  let e := {| binary := None; command := Some "cargo"; args := ["build"];
              env := None; cwd := None |} in
  let h := emptyHost (Some [folder]) in
  let l := {| promise := 0; key := "cargo build" |} in
  let own := new_Task shellDefinition (Some folder) "build" TASK_SOURCE
               (ShellExec (ShellCommandLine "cargo build"
                             {| optCwd := None; optEnv := None |})) None in
  let other := new_Task shellDefinition (Some folder) "check" TASK_SOURCE
                 (ShellExec (ShellCommandLine "cargo check"
                               {| optCwd := None; optEnv := None |})) None in
  exists h1,
    runTaskCommand e "build" None h = JS.Ok (0, h1) /\
    wf h /\
    l ∈ endListeners h1 /\
    (0 ∉ resolveCalls h1) /\
    ((l ∉ endListeners (fireDidEndTask own h1)) /\
     0 ∈ resolveCalls (fireDidEndTask own h1)) /\
    (l ∈ endListeners (fireDidEndTask other h1) /\
     (0 ∉ resolveCalls (fireDidEndTask other h1))).
Proof.
  cbv zeta. eexists. split; [reflexivity |]. split; [apply wf_emptyHost |].
  pose proof (awaited_completion_correlation
                {| binary := None; command := Some "cargo"; args := ["build"];
                   env := None; cwd := None |}
                "build" None
                (emptyHost (Some [{| uri := {| fsPath := "/w" |}; folderName := "w";
                                     index := 0 |}]))
                _ 0 (wf_emptyHost _) eq_refl) as (H1 & H2 & H3 & _).
  split; [exact H1 |]. split; [exact H2 |]. split.
  - apply (proj1 (H3 [] _ H1)). reflexivity.
  - apply (proj2 (H3 [] _ H1)). discriminate.
Defined.

(** C10: after an awaited submission, a task that ends with an execution
    that is not a [ShellExecution] changes nothing at the host: no promise is
    fulfilled and no listener removed.  While the promise of the submission
    is pending, the end of a task fulfills it exactly when the task's
    execution is a [ShellExecution] built from a command line equal to the
    stored key. *)
Theorem only_matching_ShellExecution_completes
    (e : Execution) (displayName : string) (folder : option WorkspaceFolder)
    (h h1 : Host) (p : nat) :
  wf h ->
  runTaskCommand e displayName folder h = JS.Ok (p, h1) ->
  forall evs t,
    ((forall se, execution t <> ShellExec se) ->
       fireDidEndTask t (run evs h1) = run evs h1) /\
    (p ∉ resolveCalls (run evs h1) ->
       (p ∈ resolveCalls (fireDidEndTask t (run evs h1)) <->
          exists opts,
            execution t = ShellExec (ShellCommandLine (taskCommandLine e) opts)) /\
       ({| promise := p; key := taskCommandLine e |}
          ∈ endListeners (fireDidEndTask t (run evs h1)) <->
          ~ exists opts,
            execution t = ShellExec (ShellCommandLine (taskCommandLine e) opts))).
Proof.
  intros Hwf Hrun evs t.
  split; [apply fireDidEndTask_non_shell |].
  intros Hpending.
  set (l := {| promise := p; key := taskCommandLine e |}).
  pose proof (wf_runTaskCommand _ _ _ _ _ _ Hrun Hwf) as Hwf1.
  assert (l ∈ endListeners h1) as Hl.
  { apply runTaskCommand_Ok in Hrun as (_ & -> & _). apply elem_of_app. right. left. }
  assert (l ∈ endListeners (run evs h1)) as Hin
    by (by apply (run_listener evs h1 l Hwf1 Hl)).
  destruct (run_listener [TaskEnded t] (run evs h1) l (wf_run evs h1 Hwf1) Hin)
    as [H1 H2].
  change (run [TaskEnded t] (run evs h1)) with (fireDidEndTask t (run evs h1)) in H1, H2.
  change (promise l) with p in H1, H2. change (key l) with (taskCommandLine e) in H1.
  assert ((exists t0, TaskEnded t0 ∈ [TaskEnded t] /\
                      matchesCommandLine (taskCommandLine e) t0 = true)
          <-> exists opts,
                execution t = ShellExec (ShellCommandLine (taskCommandLine e) opts))
    as Hmatch.
  { rewrite <- matchesCommandLine_inv. split.
    - by intros (t0 & [= ->]%list_elem_of_singleton & Hm).
    - intros Hm. exists t. split; [left | done]. }
  rewrite <- Hmatch, <- H1. done.
Qed.

Lemma only_matching_ShellExecution_completes_witness :
  let folder := {| uri := {| fsPath := "/w" |}; folderName := "w"; index := 0 |} in
  let e := {| binary := None; command := Some "cargo"; args := ["build"];
              env := None; cwd := None |} in
  let ended := new_Task shellDefinition (Some folder) "build" TASK_SOURCE
                 (ProcessExec "cargo" ["build"]) None in
  exists h1,
    runTaskCommand e "build" None (emptyHost (Some [folder])) = JS.Ok (0, h1) /\
    wf (emptyHost (Some [folder])) /\
    (forall se, execution ended <> ShellExec se) /\
    fireDidEndTask ended h1 = h1.
Proof.
  cbv zeta. eexists. split; [reflexivity |]. split; [apply wf_emptyHost |].
  split; [intros se; discriminate |].
  refine (proj1 (only_matching_ShellExecution_completes
                   {| binary := None; command := Some "cargo"; args := ["build"];
                      env := None; cwd := None |}
                   "build" None
                   (emptyHost (Some [{| uri := {| fsPath := "/w" |}; folderName := "w";
                                        index := 0 |}]))
                   _ 0 (wf_emptyHost _) eq_refl [] _) _).
  intros se. discriminate.
Defined.

End Correlator.

(** * Further properties of the module *)

(** ** The provider built by [activateTaskProvider] *)
Section Provider.

(** X1: every task the provider lists it also resolves.  The resolved task
    keeps the definition, label, source, scope and problem matchers of the
    listed one; it runs the same program and subcommand, given as command
    and arguments instead of a command line, and it loses the listed task's
    working directory and group. *)
Theorem provider_resolves_its_catalog (target : WorkspaceFolder) (t : Task) :
  t ∈ provideTasks (regProvider (activateTaskProvider target)) () ->
  exists c t',
    defCommand (definition t) = Some c /\
    execution t = ShellExec (ShellCommandLine ("cargo " ++ c)
                    {| optCwd := Some (fsPath (uri target)); optEnv := None |}) /\
    resolveTask (regProvider (activateTaskProvider target)) t = Some t' /\
    definition t' = definition t /\
    name t' = name t /\
    source t' = source t /\
    scope t' = scope t /\
    problemMatchers t' = problemMatchers t /\
    execution t' = ShellExec (ShellCommandArgs "cargo" [c]
                     {| optCwd := None; optEnv := None |}) /\
    group t' = None.
Proof.
  simpl. unfold detectCargoTasks. intros Ht.
  apply list_elem_of_fmap in Ht as (d & -> & Hd).
  apply list_elem_of_fmap in Hd as ([c g] & -> & Hc).
  exists c.
  repeat (apply elem_of_cons in Hc as [[= -> ->] | Hc];
          [eexists; repeat split |]).
  by apply elem_of_nil in Hc.
Qed.

Lemma provider_resolves_its_catalog_witness :
  let target := {| uri := {| fsPath := "/w" |}; folderName := "w"; index := 0 |} in
  let t := set_group (Some Test)
             (new_Task {| type := "cargo"; defCommand := Some "test"; defArgs := None;
                          defCwd := None; defEnv := None |}
                (Some target) "cargo test - w" "Rust"
                (ShellExec (ShellCommandLine "cargo test"
                              {| optCwd := Some "/w"; optEnv := None |}))
                (Some ["$rustc"])) in
  t ∈ detectCargoTasks target /\
  exists t',
    resolveCargoTask t target = Some t' /\
    name t' = "cargo test - w" /\
    execution t' = ShellExec (ShellCommandArgs "cargo" ["test"]
                     {| optCwd := None; optEnv := None |}).
Proof.
  cbv zeta.
  set (target := {| uri := {| fsPath := "/w" |}; folderName := "w"; index := 0 |}).
  set (t := set_group _ _).
  assert (t ∈ detectCargoTasks target) as Hin
    by (do 2 apply list_elem_of_further; apply list_elem_of_here).
  split; [exact Hin |].
  destruct (provider_resolves_its_catalog target t Hin)
    as (c & t' & [= <-] & _ & Hres & _ & Hname & _ & _ & _ & Hex & _).
  by exists t'.
Defined.

(** X2: the provider stays inside the namespace it registers for: every task
    it lists has the registered type, and it declines every task of another
    type. *)
Theorem provider_stays_in_namespace (target : WorkspaceFolder) (t : Task) :
  (t ∈ provideTasks (regProvider (activateTaskProvider target)) () ->
     type (definition t) = regType (activateTaskProvider target)) /\
  (type (definition t) <> regType (activateTaskProvider target) ->
     resolveTask (regProvider (activateTaskProvider target)) t = None).
Proof.
  simpl. split.
  - unfold detectCargoTasks. intros Ht.
    apply list_elem_of_fmap in Ht as (d & -> & Hd).
    by apply list_elem_of_fmap in Hd as ([c g] & -> & _).
  - intros Hne. apply eq_None_not_Some. rewrite resolveCargoTask_guard.
    by intros [Ht _].
Qed.

Lemma provider_stays_in_namespace_witness :
  let target := {| uri := {| fsPath := "/w" |}; folderName := "w"; index := 0 |} in
  let t := new_Task {| type := "npm"; defCommand := Some "build"; defArgs := None;
                       defCwd := None; defEnv := None |}
             (Some target) "npm build" "Workspace" NoExec None in
  resolveCargoTask t target = None.
Proof.
  cbv zeta.
  apply (proj2 (provider_stays_in_namespace
                  {| uri := {| fsPath := "/w" |}; folderName := "w"; index := 0 |}
                  (new_Task {| type := "npm"; defCommand := Some "build"; defArgs := None;
                               defCwd := None; defEnv := None |}
                     (Some {| uri := {| fsPath := "/w" |}; folderName := "w"; index := 0 |})
                     "npm build" "Workspace" NoExec None))).
  discriminate.
Defined.

(** X3: resolving is idempotent.  A task that came out of the resolver
    resolves to itself for the same target, and for any target it resolves
    to what the original task resolves to. *)
Theorem resolveCargoTask_idempotent (task t : Task) (target target' : WorkspaceFolder) :
  resolveCargoTask task target = Some t ->
  resolveCargoTask t target = Some t /\
  resolveCargoTask t target' = resolveCargoTask task target'.
Proof.
  intros H. unfold resolveCargoTask in H.
  destruct (String.eqb (type (definition task)) "cargo"
            && JS.truthy (defCommand (definition task))) eqn:Hguard; [| done].
  destruct (defCommand (definition task)) as [c|] eqn:Hc; [| done].
  injection H as <-. unfold resolveCargoTask. simpl. rewrite Hc, Hguard. done.
Qed.

Lemma resolveCargoTask_idempotent_witness :
  let target := {| uri := {| fsPath := "/w" |}; folderName := "w"; index := 0 |} in
  let t := new_Task {| type := "cargo"; defCommand := Some "doc"; defArgs := Some ["--open"];
                       defCwd := Some "/w/sub"; defEnv := None |}
             (Some target) "docs" "Rust"
             (ShellExec (ShellCommandArgs "cargo" ["doc"; "--open"]
                           {| optCwd := Some "/w/sub"; optEnv := None |}))
             (Some ["$rustc"]) in
  resolveCargoTask t target = Some t.
Proof.
  cbv zeta.
  refine (proj1 (resolveCargoTask_idempotent
                   {| definition := {| type := "cargo"; defCommand := Some "doc";
                                       defArgs := Some ["--open"];
                                       defCwd := Some "/w/sub"; defEnv := None |};
                      scope := None; name := "docs"; source := "Workspace";
                      execution := NoExec; problemMatchers := None;
                      group := Some Build |}
                   _
                   {| uri := {| fsPath := "/w" |}; folderName := "w"; index := 0 |}
                   {| uri := {| fsPath := "/w" |}; folderName := "w"; index := 0 |}
                   _)).
  reflexivity.
Defined.

End Provider.

(** ** Submissions: [runRlsCommand] and [runTaskCommand] *)
Section Submission.

Implicit Types (h : Host) (e : Execution) (p : nat).

(** X4: an awaited submission raises exactly when no folder is passed and
    the workspace has no folder list; in every other case it returns the
    next promise. *)
Theorem runTaskCommand_throws_iff e (displayName : string)
    (folder : option WorkspaceFolder) h :
  (runTaskCommand e displayName folder h = JS.Throw JS.TypeError <->
     folder = None /\ workspaceFolders h = None) /\
  ((exists h', runTaskCommand e displayName folder h = JS.Ok (nextPromise h, h')) <->
     is_Some folder \/ is_Some (workspaceFolders h)).
Proof.
  unfold runTaskCommand, taskScope.
  destruct folder as [f|]; [| destruct (workspaceFolders h) as [fs|]]; simpl.
  - split; split; try done.
    + by intros [[=] _].
    + intros _. left. by eexists.
    + intros _. by eexists.
  - split; split; try done.
    + by intros [_ [=]].
    + intros _. right. by eexists.
    + intros _. by eexists.
  - split; split; try done.
    + by intros [h' [=]].
    + by intros [[? [=]] | [? [=]]].
Qed.

(** X5: the task of an awaited submission is a [shell] task named by the
    display name, with the request's environment.  With a folder it is
    scoped to it and runs in the request's [cwd], or in the folder when
    [cwd] is absent or empty.  Without a folder it is scoped to the
    workspace's first folder, if any, and runs in the request's [cwd] or in
    no directory at all: the first folder's path is never used. *)
Theorem runTaskCommand_scope_and_cwd e (displayName : string)
    (folder : option WorkspaceFolder) h p h' :
  runTaskCommand e displayName folder h = JS.Ok (p, h') ->
  exists t opts,
    executed h' = t :: executed h /\
    execution t = ShellExec (ShellCommandLine (taskCommandLine e) opts) /\
    optEnv opts = env e /\
    name t = displayName /\
    type (definition t) = "shell" /\
    match folder with
    | Some f =>
        scope t = Some f /\
        optCwd opts = if JS.truthy (cwd e) then cwd e else Some (fsPath (uri f))
    | None =>
        scope t = workspaceFolders h ≫= head /\
        optCwd opts = if JS.truthy (cwd e) then cwd e else None
    end.
Proof.
  unfold runTaskCommand, taskScope.
  destruct folder as [f|]; [| destruct (workspaceFolders h) as [fs|] eqn:Hfs];
    simpl; [| | done]; intros [= <- <-]; eexists _, _; simpl.
  - repeat split.
  - repeat split. by destruct fs.
Qed.

Lemma runTaskCommand_scope_and_cwd_witness :
  let first := {| uri := {| fsPath := "/w" |}; folderName := "w"; index := 0 |} in
  let e := {| binary := None; command := Some "rustup"; args := ["update"];
              env := None; cwd := Some "" |} in
  exists t h',
    runTaskCommand e "Updating" None (emptyHost (Some [first])) = JS.Ok (0, h') /\
    executed h' = [t] /\
    scope t = Some first /\
    execution t = ShellExec (ShellCommandLine "rustup update"
                    {| optCwd := None; optEnv := None |}).
Proof.
  cbv zeta.
  destruct (runTaskCommand_scope_and_cwd
              {| binary := None; command := Some "rustup"; args := ["update"];
                 env := None; cwd := Some "" |}
              "Updating" None
              (emptyHost (Some [{| uri := {| fsPath := "/w" |}; folderName := "w";
                                   index := 0 |}]))
              0 _ eq_refl)
    as (t & [c v] & Hex & Hcmd & Henv & _ & _ & Hsc & Hcwd).
  simpl in *. subst. exists t. eexists. repeat split; done.
Defined.

(** X6: when [command] is a non-empty string, the line an awaited
    submission executes and keeps as its key is the command line
    [createShellExecution] gives for the same request. *)
Theorem runTaskCommand_normalized_when_command e (displayName : string)
    (folder : option WorkspaceFolder) h p h' :
  JS.truthy (command e) = true ->
  runTaskCommand e displayName folder h = JS.Ok (p, h') ->
  exists cl t opts,
    commandLine (createShellExecution e) = Some cl /\
    executed h' = t :: executed h /\
    execution t = ShellExec (ShellCommandLine cl opts) /\
    {| promise := p; key := cl |} ∈ endListeners h'.
Proof.
  intros Hc Hrun. exists (taskCommandLine e).
  pose proof (runTaskCommand_Ok _ _ _ _ _ _ Hrun) as (_ & Hl & _ & _ & sc & Hex).
  eexists _, _. split; [by apply taskCommandLine_truthy_command |].
  split; [exact Hex |]. split; [reflexivity |].
  rewrite Hl. apply elem_of_app. right. left.
Qed.

Lemma runTaskCommand_normalized_when_command_witness :
  let e := {| binary := Some "rls"; command := Some "cargo"; args := ["build"];
              env := None; cwd := None |} in
  let folder := {| uri := {| fsPath := "/w" |}; folderName := "w"; index := 0 |} in
  exists h',
    runTaskCommand e "build" (Some folder) (emptyHost None) = JS.Ok (0, h') /\
    commandLine (createShellExecution e) = Some "cargo build" /\
    {| promise := 0; key := "cargo build" |} ∈ endListeners h'.
Proof.
  cbv zeta. eexists. split; [reflexivity |].
  destruct (runTaskCommand_normalized_when_command
              {| binary := Some "rls"; command := Some "cargo"; args := ["build"];
                 env := None; cwd := None |}
              "build"
              (Some {| uri := {| fsPath := "/w" |}; folderName := "w"; index := 0 |})
              (emptyHost None) 0 _ eq_refl eq_refl)
    as (cl & t & opts & [= <-] & _ & _ & Hin).
  split; [reflexivity | exact Hin].
Defined.

End Submission.

(** ** The correlator over whole runs of the host *)
Section Runs.

Implicit Types (h : Host) (e : Execution) (l : EndListener) (t : Task) (p : nat).

Lemma fireDidEndTask_no_match t h :
  (forall k, matchesCommandLine k t = false) -> fireDidEndTask t h = h.
Proof.
  intros Hm. unfold fireDidEndTask.
  generalize (endListeners h) as ls. intros ls. revert h.
  induction ls as [|l ls IH]; intros h; [done |].
  simpl. unfold endTaskListener at 2. rewrite Hm. apply IH.
Qed.

Lemma wf_executeTask t h : wf h -> wf (executeTask t h).
Proof. done. Qed.

Lemma filter_ext_elem {A} (P Q : A -> Prop)
    `{!forall x, Decision (P x), !forall x, Decision (Q x)} (xs : list A) :
  (forall x, x ∈ xs -> P x <-> Q x) -> filter P xs = filter Q xs.
Proof.
  induction xs as [|a xs IH]; intros HPQ; [done |].
  rewrite !filter_cons.
  assert (filter P xs = filter Q xs) as ->
    by (apply IH; intros x Hx; apply HPQ; by right).
  destruct (decide (P a)) as [HP | HP], (decide (Q a)) as [HQ | HQ]; try done.
  - destruct HQ. apply HPQ; [left | done].
  - destruct HP. apply HPQ; [left | done].
Qed.

(** Firing an event moves listeners to resolutions, one for one. *)
Lemma fireDidEndTask_count t h :
  wf h ->
  length (endListeners (fireDidEndTask t h)) + length (resolveCalls (fireDidEndTask t h))
  = length (endListeners h) + length (resolveCalls h).
Proof.
  intros (Hnd & _). unfold fireDidEndTask.
  destruct (foldl_endTaskListener t (endListeners h) h) as (-> & -> & _).
  set (M := fun l => matchesCommandLine (key l) t = true).
  rewrite (filter_ext_elem _ (fun l => ~ M l)).
  - rewrite length_app, length_reverse, length_fmap.
    pose proof (filter_app_complement M (endListeners h)) as HP.
    apply Permutation_length in HP. rewrite length_app in HP. lia.
  - intros l Hl. rewrite list_elem_of_fmap. split.
    + intros Hhit Hm. apply Hhit. exists l. split; [done |].
      by apply list_elem_of_filter.
    + intros Hm (l' & Hp & [Hm' Hl']%list_elem_of_filter).
      assert (l = l') as <- by (eapply NoDup_fmap_eq; eauto). done.
Qed.

Lemma step_count h (ev : HostEvent) :
  wf h ->
  length (endListeners h) + length (resolveCalls h) = nextPromise h ->
  length (endListeners (step h ev)) + length (resolveCalls (step h ev))
  = nextPromise (step h ev).
Proof.
  intros Hwf Hacc. destruct ev as [e n f | t]; simpl.
  - destruct (runTaskCommand e n f h) as [[p h'] | err] eqn:Hrun; [| done].
    apply runTaskCommand_Ok in Hrun as (_ & -> & -> & -> & _).
    rewrite length_app. simpl. lia.
  - rewrite fireDidEndTask_count, fireDidEndTask_nextPromise; done.
Qed.

(** X7: in every host reached from the initial one by awaited submissions
    and ended tasks, a promise has at most one listener, only promises
    without a listener have been fulfilled, none was fulfilled twice, and
    every promise allocated so far is either fulfilled or still has its
    listener subscribed: the listeners and the fulfilled promises together
    number the promises allocated. *)
Theorem reachable_host_accounting
    (folders : option (list WorkspaceFolder)) (evs : list HostEvent) :
  wf (run evs (emptyHost folders)) /\
  length (endListeners (run evs (emptyHost folders)))
    + length (resolveCalls (run evs (emptyHost folders)))
  = nextPromise (run evs (emptyHost folders)).
Proof.
  split; [apply wf_run, wf_emptyHost |].
  assert (forall h, wf h ->
            length (endListeners h) + length (resolveCalls h) = nextPromise h ->
            length (endListeners (run evs h)) + length (resolveCalls (run evs h))
            = nextPromise (run evs h)) as Hrun.
  { induction evs as [|ev evs IH]; intros h Hwf Hacc; [done |].
    apply IH; [by apply wf_step | by apply step_count]. }
  apply Hrun; [apply wf_emptyHost | done].
Qed.

(** X8: the end of the very task an awaited submission started fulfills its
    promise and removes its listener, whatever else happens at the host. *)
Theorem runTaskCommand_own_end_fulfills e (displayName : string)
    (folder : option WorkspaceFolder) h h1 p :
  wf h ->
  runTaskCommand e displayName folder h = JS.Ok (p, h1) ->
  exists t,
    executed h1 = t :: executed h /\
    forall evs, TaskEnded t ∈ evs ->
      p ∈ resolveCalls (run evs h1) /\
      ({| promise := p; key := taskCommandLine e |} ∉ endListeners (run evs h1)).
Proof.
  intros Hwf Hrun.
  pose proof (wf_runTaskCommand _ _ _ _ _ _ Hrun Hwf) as Hwf1.
  pose proof (runTaskCommand_Ok _ _ _ _ _ _ Hrun) as (_ & Hl & _ & _ & sc & Hex).
  exists (runTaskCommandTask e displayName folder sc). split; [done |].
  intros evs Hin.
  set (l := {| promise := p; key := taskCommandLine e |}).
  assert (l ∈ endListeners h1) as Hl1 by (rewrite Hl; apply elem_of_app; right; left).
  destruct (run_listener evs h1 l Hwf1 Hl1) as [H1 H2].
  assert (p ∈ resolveCalls (run evs h1)) as Hp.
  { apply H1. eexists. split; [exact Hin |].
    apply matchesCommandLine_inv. by eexists. }
  split; [done |]. intros Hin'. by apply H2 in Hin'.
Qed.

Lemma runTaskCommand_own_end_fulfills_witness :
  let e := {| binary := None; command := Some "rustup"; args := ["show"];
              env := None; cwd := None |} in
  let folder := {| uri := {| fsPath := "/w" |}; folderName := "w"; index := 0 |} in
  exists h1 t,
    runTaskCommand e "Show" (Some folder) (emptyHost None) = JS.Ok (0, h1) /\
    executed h1 = [t] /\
    0 ∈ resolveCalls (fireDidEndTask t h1).
Proof.
  cbv zeta. eexists.
  destruct (runTaskCommand_own_end_fulfills
              {| binary := None; command := Some "rustup"; args := ["show"];
                 env := None; cwd := None |}
              "Show"
              (Some {| uri := {| fsPath := "/w" |}; folderName := "w"; index := 0 |})
              (emptyHost None) _ 0 (wf_emptyHost None) eq_refl)
    as (t & Hex & Hend).
  exists t. split; [reflexivity |]. split; [exact Hex |].
  apply (Hend [TaskEnded t]). left.
Defined.

(** X9: two awaited submissions made back to back with the same command
    line have different promises, and these are fulfilled together: after
    any events, one is fulfilled exactly when the other is. *)
Theorem same_command_line_fulfilled_together e1 e2 (name1 name2 : string)
    (folder1 folder2 : option WorkspaceFolder) h h1 h2 p1 p2 :
  wf h ->
  runTaskCommand e1 name1 folder1 h = JS.Ok (p1, h1) ->
  runTaskCommand e2 name2 folder2 h1 = JS.Ok (p2, h2) ->
  taskCommandLine e1 = taskCommandLine e2 ->
  p1 <> p2 /\
  forall evs, p1 ∈ resolveCalls (run evs h2) <-> p2 ∈ resolveCalls (run evs h2).
Proof.
  intros Hwf Hrun1 Hrun2 Hkey.
  pose proof (wf_runTaskCommand _ _ _ _ _ _ Hrun1 Hwf) as Hwf1.
  pose proof (wf_runTaskCommand _ _ _ _ _ _ Hrun2 Hwf1) as Hwf2.
  pose proof (runTaskCommand_Ok _ _ _ _ _ _ Hrun1) as (Hp1 & Hl1 & _ & Hn1 & _).
  pose proof (runTaskCommand_Ok _ _ _ _ _ _ Hrun2) as (Hp2 & Hl2 & _ & _ & _).
  split; [lia |]. intros evs.
  set (l1 := {| promise := p1; key := taskCommandLine e1 |}).
  set (l2 := {| promise := p2; key := taskCommandLine e2 |}).
  assert (l1 ∈ endListeners h2) as Hin1.
  { rewrite Hl2, Hl1. apply elem_of_app. left. apply elem_of_app. right. left. }
  assert (l2 ∈ endListeners h2) as Hin2.
  { rewrite Hl2. apply elem_of_app. right. left. }
  pose proof (proj1 (run_listener evs h2 l1 Hwf2 Hin1)) as H1.
  pose proof (proj1 (run_listener evs h2 l2 Hwf2 Hin2)) as H2.
  change (promise l1) with p1 in H1. change (promise l2) with p2 in H2.
  change (key l1) with (taskCommandLine e1) in H1.
  change (key l2) with (taskCommandLine e2) in H2.
  rewrite H1, H2, Hkey. done.
Qed.

Lemma same_command_line_fulfilled_together_witness :
  let e := {| binary := None; command := Some "cargo"; args := ["build"];
              env := None; cwd := None |} in
  let folder := {| uri := {| fsPath := "/w" |}; folderName := "w"; index := 0 |} in
  let ended := new_Task shellDefinition None "other" "Workspace"
                 (ShellExec (ShellCommandLine "cargo build"
                               {| optCwd := None; optEnv := None |})) None in
  exists h1 h2,
    runTaskCommand e "first" (Some folder) (emptyHost None) = JS.Ok (0, h1) /\
    runTaskCommand e "second" (Some folder) h1 = JS.Ok (1, h2) /\
    (0 ∈ resolveCalls (fireDidEndTask ended h2) <->
     1 ∈ resolveCalls (fireDidEndTask ended h2)).
Proof.
  cbv zeta. eexists _, _. split; [reflexivity |]. split; [reflexivity |].
  match goal with
  | |- _ ∈ resolveCalls (fireDidEndTask ?t ?h2) <-> _ =>
      change (0 ∈ resolveCalls (run [TaskEnded t] h2) <->
              1 ∈ resolveCalls (run [TaskEnded t] h2))
  end.
  apply (proj2 (same_command_line_fulfilled_together
                  {| binary := None; command := Some "cargo"; args := ["build"];
                     env := None; cwd := None |}
                  {| binary := None; command := Some "cargo"; args := ["build"];
                     env := None; cwd := None |}
                  "first" "second"
                  (Some {| uri := {| fsPath := "/w" |}; folderName := "w"; index := 0 |})
                  (Some {| uri := {| fsPath := "/w" |}; folderName := "w"; index := 0 |})
                  (emptyHost None) _ _ 0 1 (wf_emptyHost None) eq_refl eq_refl eq_refl)).
Defined.

(** X10: the end of a task that came out of the resolver never fulfills a
    promise and never removes a listener, whatever command it ran: its
    execution carries a command and arguments, not a command line. *)
Theorem resolved_task_end_changes_nothing (task t : Task) (target : WorkspaceFolder) h :
  resolveCargoTask task target = Some t ->
  fireDidEndTask t h = h.
Proof.
  intros (se & Hex & Hcl)%resolveCargoTask_no_commandLine.
  apply fireDidEndTask_no_match. intros k. unfold matchesCommandLine.
  rewrite Hex, Hcl. by apply bool_decide_eq_false.
Qed.

Lemma resolved_task_end_changes_nothing_witness :
  let folder := {| uri := {| fsPath := "/w" |}; folderName := "w"; index := 0 |} in
  let e := {| binary := None; command := Some "cargo"; args := ["build"];
              env := None; cwd := None |} in
  let task := {| definition := {| type := "cargo"; defCommand := Some "build";
                                  defArgs := None; defCwd := None; defEnv := None |};
                 scope := Some folder; name := "build"; source := "Workspace";
                 execution := NoExec; problemMatchers := None; group := None |} in
  exists h1 t,
    runTaskCommand e "build" (Some folder) (emptyHost None) = JS.Ok (0, h1) /\
    resolveCargoTask task folder = Some t /\
    fireDidEndTask t h1 = h1.
Proof.
  cbv zeta. eexists _, _. split; [reflexivity |]. split; [reflexivity |].
  apply (resolved_task_end_changes_nothing
           {| definition := {| type := "cargo"; defCommand := Some "build";
                               defArgs := None; defCwd := None; defEnv := None |};
              scope := Some {| uri := {| fsPath := "/w" |}; folderName := "w"; index := 0 |};
              name := "build"; source := "Workspace";
              execution := NoExec; problemMatchers := None; group := None |}
           _ {| uri := {| fsPath := "/w" |}; folderName := "w"; index := 0 |} _ eq_refl).
Defined.

(** X11: a command sent by the RLS is started without subscribing or
    resolving anything, and the end of its task fulfills a pending awaited
    submission exactly when the command line [createShellExecution] gave it
    is the submission's key. *)
Theorem rls_task_end_fulfills_awaited e (displayName : string)
    (folder : option WorkspaceFolder) h h1 p
    (rlsFolder : WorkspaceFolder) (rlsExecution : Execution) :
  wf h ->
  runTaskCommand e displayName folder h = JS.Ok (p, h1) ->
  exists t,
    executed (runRlsCommand rlsFolder rlsExecution h1) = t :: executed h1 /\
    endListeners (runRlsCommand rlsFolder rlsExecution h1) = endListeners h1 /\
    resolveCalls (runRlsCommand rlsFolder rlsExecution h1) = resolveCalls h1 /\
    (p ∈ resolveCalls (fireDidEndTask t (runRlsCommand rlsFolder rlsExecution h1)) <->
     commandLine (createShellExecution rlsExecution) = Some (taskCommandLine e)).
Proof.
  intros Hwf Hrun.
  pose proof (wf_runTaskCommand _ _ _ _ _ _ Hrun Hwf) as Hwf1.
  pose proof (runTaskCommand_Ok _ _ _ _ _ _ Hrun) as (_ & Hl & _).
  exists (runRlsCommandTask rlsFolder rlsExecution). repeat split.
  - set (l := {| promise := p; key := taskCommandLine e |}).
    set (h2 := runRlsCommand rlsFolder rlsExecution h1).
    assert (l ∈ endListeners h2) as Hin
      by (simpl; rewrite Hl; apply elem_of_app; right; left).
    pose proof (proj1 (run_listener [TaskEnded (runRlsCommandTask rlsFolder rlsExecution)]
                         h2 l (wf_executeTask _ _ Hwf1) Hin)) as H1.
    intros Hp. apply H1 in Hp as (t & [= ->]%list_elem_of_singleton & Hm).
    by apply bool_decide_eq_true in Hm.
  - intros Hcl.
    set (l := {| promise := p; key := taskCommandLine e |}).
    set (h2 := runRlsCommand rlsFolder rlsExecution h1).
    assert (l ∈ endListeners h2) as Hin
      by (simpl; rewrite Hl; apply elem_of_app; right; left).
    apply (proj1 (run_listener [TaskEnded (runRlsCommandTask rlsFolder rlsExecution)]
                    h2 l (wf_executeTask _ _ Hwf1) Hin)).
    eexists. split; [left |]. by apply bool_decide_eq_true.
Qed.

Lemma rls_task_end_fulfills_awaited_witness :
  let folder := {| uri := {| fsPath := "/w" |}; folderName := "w"; index := 0 |} in
  let e := {| binary := None; command := Some "cargo"; args := ["build"];
              env := None; cwd := None |} in
  let rls := {| binary := Some "cargo"; command := None; args := ["build"];
                env := None; cwd := None |} in
  exists h1,
    runTaskCommand e "build" (Some folder) (emptyHost None) = JS.Ok (0, h1) /\
    0 ∈ resolveCalls (fireDidEndTask (runRlsCommandTask folder rls)
                        (runRlsCommand folder rls h1)).
Proof.
  cbv zeta. eexists. split; [reflexivity |].
  destruct (rls_task_end_fulfills_awaited
              {| binary := None; command := Some "cargo"; args := ["build"];
                 env := None; cwd := None |}
              "build"
              (Some {| uri := {| fsPath := "/w" |}; folderName := "w"; index := 0 |})
              (emptyHost None) _ 0
              {| uri := {| fsPath := "/w" |}; folderName := "w"; index := 0 |}
              {| binary := Some "cargo"; command := None; args := ["build"];
                 env := None; cwd := None |}
              (wf_emptyHost None) eq_refl)
    as (t & [= <-] & _ & _ & Hiff).
  apply Hiff. reflexivity.
Defined.

End Runs.

(** ** Command lines *)
Section CommandLines.

Lemma join_merge (pre post : list string) (x y : string) :
  JS.join " " (pre ++ x :: y :: post)%list = JS.join " " (pre ++ (x ++ " " ++ y)%string :: post)%list.
Proof.
  induction pre as [|a pre IH].
  - rewrite !app_nil_l, join_cons. destruct post as [|z post].
    + by rewrite !join_singleton.
    + rewrite !join_cons. by rewrite <- !append_assoc.
  - destruct pre as [|b pre].
    + rewrite !app_nil_l in IH.
      change (JS.join " " (a :: x :: y :: post)
              = JS.join " " (a :: (x ++ " " ++ y) :: post)).
      rewrite join_cons, IH. destruct post; reflexivity.
    + change (JS.join " " (a :: b :: (pre ++ x :: y :: post)%list)
              = JS.join " " (a :: b :: (pre ++ (x ++ " " ++ y)%string :: post)%list)).
      rewrite !join_cons. f_equal. f_equal. exact IH.
Qed.

(** X12: the command line does not keep the boundaries of the arguments:
    two neighbouring arguments and the single argument made of them with a
    space between give the same [ShellExecution], for every request. *)
Theorem createShellExecution_forgets_argument_boundaries
    (e : Execution) (pre post : list string) (x y : string) :
  createShellExecution (setArgs (pre ++ x :: y :: post)%list e)
  = createShellExecution (setArgs (pre ++ (x ++ " " ++ y)%string :: post)%list e).
Proof.
  unfold createShellExecution, setArgs. simpl. by rewrite join_merge.
Qed.

(** X13: for every project root the five tasks of the catalog have pairwise
    different labels and pairwise different command lines. *)
Theorem detectCargoTasks_distinct (target : WorkspaceFolder) :
  NoDup (name <$> detectCargoTasks target) /\
  NoDup ((fun t => match execution t with
                   | ShellExec se => commandLine se
                   | _ => None
                   end) <$> detectCargoTasks target).
Proof.
  split; simpl;
    repeat (apply NoDup_cons_2;
            [ intros H;
              repeat (apply elem_of_cons in H as [H | H]; [cbv in H; discriminate |]);
              by apply elem_of_nil in H
            | ]);
    apply NoDup_nil_2.
Qed.

End CommandLines.
